(** * The [useGeolocation] hook: a fallback cascade over three location sources

    Shallow embedding of [src/hooks/use-geolocation.ts].  The hook keeps one
    [GeolocationState] and, on mount and on every manual refresh, runs
    [getLocationWithFallback]: high-accuracy device location, then
    low-accuracy device location, then IP geolocation over HTTP.

    The asynchronous function is embedded in a small monad that threads the
    hook state, records every interaction with the outside (state updates,
    [getCurrentPosition] calls, [fetch], [console.log]) in a trace, and
    carries JavaScript exceptions, so that [try]/[catch] reads as in the
    source.  What the browser and the network answer is a parameter, the
    [World].  One run is followed from its start to its end; runs that
    overlap in time are not modelled. *)

From Stdlib Require Import PrimFloat String List Bool ZArith Lia.
Import ListNotations.
Open Scope string_scope.
Set Warnings "-register-all,-inexact-float".

(** ** JavaScript values

    The rejection values bound by [catch (e: any)] and the body returned by
    [response.json()] are untyped in the source, so they are modelled as
    run-time values.  Numbers are IEEE binary64. *)
Module Js.

Inductive value : Type :=
| Undefined
| Null
| Boolean (b : bool)
| Num (x : float)
| Str (s : string)
| Arr (items : list value)
| Obj (fields : list (string * value)).

(** ToBoolean: [undefined], [null], [false], [+0], [-0], [NaN] and the empty
    string are falsy, everything else is truthy. *)
Definition truthy (v : value) : bool :=
  match v with
  | Undefined | Null => false
  | Boolean b => b
  | Num x => negb (PrimFloat.eqb x 0 || PrimFloat.is_nan x)
  | Str s => negb (String.eqb s "")
  | Arr _ | Obj _ => true
  end.

Definition nullish (v : value) : bool :=
  match v with
  | Undefined | Null => true
  | _ => false
  end.

Fixpoint lookup (k : string) (fields : list (string * value)) : value :=
  match fields with
  | [] => Undefined
  | (k', v) :: rest => if String.eqb k k' then v else lookup k rest
  end.

(** [new Error(msg)] and the TypeError raised by a property read on
    [undefined] or [null]. *)
Definition Error (msg : string) : value :=
  Obj [("name", Str "Error"); ("message", Str msg)].

Definition TypeError : value :=
  Obj [("name", Str "TypeError")].

(** [v.k] for the property names this hook reads ([message], [code],
    [latitude], [longitude]), none of which a primitive or an array
    inherits: the read throws on [undefined] and [null], finds the field of
    an object, and is [undefined] otherwise. *)
Definition get (v : value) (k : string) : value + value :=
  match v with
  | Undefined | Null => inr TypeError
  | Obj fields => inl (lookup k fields)
  | _ => inl Undefined
  end.

(** [v?.k] *)
Definition get_optional (v : value) (k : string) : value + value :=
  if nullish v then inl Undefined else get v k.

(** [v === n] for a number literal [n]: no coercion, IEEE comparison. *)
Definition strict_equals_num (v : value) (n : float) : bool :=
  match v with
  | Num x => PrimFloat.eqb x n
  | _ => false
  end.

End Js.

(** ** Data of the hook and of the platform *)

(** [Coordinates] of [@/api/types].  The IP branch stores whatever the
    response body holds, so the fields are run-time values. *)
Record Coordinates : Type := { lat : Js.value; lon : Js.value }.

Record GeolocationState : Type := {
  coordinates : option Coordinates;
  error : option string;
  isLoading : bool
}.

Record GeolocationCoordinates : Type := { latitude : float; longitude : float }.

Record GeolocationPosition : Type := { coords : GeolocationCoordinates }.

Record PositionOptions : Type := {
  enableHighAccuracy : bool;
  timeout : Z;
  maximumAge : Z
}.

(** How one [getCurrentPosition] call ends: the success callback with a fix,
    or the error callback with a value (a [GeolocationPositionError] on a
    conforming browser). *)
Inductive PositionOutcome : Type :=
| PositionResolve (position : GeolocationPosition)
| PositionReject (reason : Js.value).

(** A [fetch] response: the status, which the hook never looks at, and the
    body as parsed by [response.json()], [None] when it is not JSON. *)
Record Response : Type := { status : Z; body : option Js.value }.

Inductive FetchOutcome : Type :=
| FetchResolve (response : Response)
| FetchReject (reason : Js.value).

(** The collaborators during one run: [navigator.geolocation] (absent on a
    platform without the capability) and the network. *)
Record World : Type := {
  geolocation : option (PositionOptions -> PositionOutcome);
  fetch : string -> FetchOutcome
}.

(** What the run does to the outside, in order. *)
Inductive event : Type :=
| EvSetState (next : GeolocationState)
| EvGetCurrentPosition (options : PositionOptions)
| EvFetch (url : string)
| EvJson
| EvLog (label : string) (detail : Js.value).

(** ** The monad: state, trace and exceptions *)

Inductive Completion (A : Type) : Type :=
| Normal (a : A)
| Throw (e : Js.value).
Arguments Normal {A} a.
Arguments Throw {A} e.

Record Run (A : Type) : Type := {
  trace : list event;
  state : GeolocationState;
  completion : Completion A
}.
Arguments trace {A} r.
Arguments state {A} r.
Arguments completion {A} r.

Definition M (A : Type) : Type := World -> GeolocationState -> Run A.

Definition ret {A} (a : A) : M A :=
  fun _ s => {| trace := []; state := s; completion := Normal a |}.

Definition throw {A} (e : Js.value) : M A :=
  fun _ s => {| trace := []; state := s; completion := Throw e |}.

Definition bind {A B} (m : M A) (k : A -> M B) : M B :=
  fun w s =>
    match m w s with
    | {| trace := tr; state := s1; completion := Normal a |} =>
        match k a w s1 with
        | {| trace := tr'; state := s2; completion := c |} =>
            {| trace := tr ++ tr'; state := s2; completion := c |}
        end
    | {| trace := tr; state := s1; completion := Throw e |} =>
        {| trace := tr; state := s1; completion := Throw e |}
    end.

Definition try_catch {A} (m : M A) (handler : Js.value -> M A) : M A :=
  fun w s =>
    match m w s with
    | {| trace := tr; state := s1; completion := Normal a |} =>
        {| trace := tr; state := s1; completion := Normal a |}
    | {| trace := tr; state := s1; completion := Throw e |} =>
        match handler e w s1 with
        | {| trace := tr'; state := s2; completion := c |} =>
            {| trace := tr ++ tr'; state := s2; completion := c |}
        end
    end.

Declare Scope js_scope.
Delimit Scope js_scope with js.
Notation "x <- m ;; k" := (bind m (fun x => k))
  (at level 100, m at next level, right associativity) : js_scope.
Notation "m ;; k" := (bind m (fun _ => k))
  (at level 100, right associativity) : js_scope.
Open Scope js_scope.

Definition emit (e : event) : M unit :=
  fun _ s => {| trace := [e]; state := s; completion := Normal tt |}.

(** A property read inside the monad: a TypeError becomes an exception. *)
Definition lift (r : Js.value + Js.value) : M Js.value :=
  match r with
  | inl v => ret v
  | inr e => throw e
  end.

(** [setLocationData(updater)]: the new state replaces the old one whole. *)
Definition setLocationData (updater : GeolocationState -> GeolocationState)
  : M unit :=
  fun _ s =>
    {| trace := [EvSetState (updater s)]; state := updater s;
       completion := Normal tt |}.

Definition navigator_geolocation
  : M (option (PositionOptions -> PositionOutcome)) :=
  fun w s => {| trace := []; state := s; completion := Normal (geolocation w) |}.

(** [new Promise((resolve, reject) =>
       navigator.geolocation.getCurrentPosition(resolve, reject, options))],
    awaited. *)
Definition getCurrentPosition (options : PositionOptions)
  : M GeolocationPosition :=
  geo <- navigator_geolocation ;;
  match geo with
  | None => throw Js.TypeError
  | Some locate =>
      emit (EvGetCurrentPosition options) ;;
      match locate options with
      | PositionResolve position => ret position
      | PositionReject reason => throw reason
      end
  end.

(** [await fetch(url)]: the address is the only argument, so the request
    is a plain GET with no abort signal. *)
Definition fetch_url (url : string) : M Response :=
  emit (EvFetch url) ;;
  fun w =>
    match fetch w url with
    | FetchResolve response => ret response w
    | FetchReject reason => throw reason w
    end.

(** [await response.json()] *)
Definition json (response : Response) : M Js.value :=
  emit EvJson ;;
  match body response with
  | Some data => ret data
  | None => throw (Js.Error "Unexpected token in JSON")
  end.

Definition console_log (label : string) (detail : Js.value) : M unit :=
  emit (EvLog label detail).

(** ** The hook *)

(** The argument of [useState]. *)
Definition initialState : GeolocationState :=
  {| coordinates := None; error := None; isLoading := true |}.

Definition tryHighAccuracy : M GeolocationPosition :=
  getCurrentPosition
    {| enableHighAccuracy := true; timeout := 10000; maximumAge := 300000 |}.

Definition tryLowAccuracy : M GeolocationPosition :=
  getCurrentPosition
    {| enableHighAccuracy := false; timeout := 15000; maximumAge := 600000 |}.

Definition tryIPGeolocation : M Coordinates :=
  try_catch
    (response <- fetch_url "https://ipapi.co/json/" ;;
     data <- json response ;;
     latitude <- lift (Js.get data "latitude") ;;
     both <- (if Js.truthy latitude
              then lift (Js.get data "longitude")
              else ret latitude) ;;
     if Js.truthy both then
       lat <- lift (Js.get data "latitude") ;;
       lon <- lift (Js.get data "longitude") ;;
       ret {| lat := lat; lon := lon |}
     else throw (Js.Error "Invalid IP geolocation response"))
    (fun _ => throw (Js.Error "IP geolocation failed")).

Definition positionCoordinates (position : GeolocationPosition) : Coordinates :=
  {| lat := Js.Num (latitude (coords position));
     lon := Js.Num (longitude (coords position)) |}.

(** The [switch (gpsError?.code)] of the final failure. *)
Definition errorMessageFor (code : Js.value) : string :=
  if Js.strict_equals_num code 1 then
    "Location permission denied. Please enable location access in your browser settings."
  else if Js.strict_equals_num code 2 then
    "Location is currently unavailable. Please check your GPS/WiFi connection and try again."
  else if Js.strict_equals_num code 3 then
    "Location request timed out. Please try again."
  else
    "Unable to determine your location. Please enable location services and try again.".

Definition getLocationWithFallback : M unit :=
  setLocationData (fun prev =>
    {| coordinates := coordinates prev; error := None; isLoading := true |}) ;;
  geo <- navigator_geolocation ;;
  match geo with
  | None =>
      setLocationData (fun _ =>
        {| coordinates := None;
           error := Some "Geolocation is not supported by your browser";
           isLoading := false |})
  | Some _ =>
      try_catch
        (position <- tryHighAccuracy ;;
         setLocationData (fun _ =>
           {| coordinates := Some (positionCoordinates position);
              error := None; isLoading := false |}))
        (fun highAccuracyError =>
           message <- lift (Js.get highAccuracyError "message") ;;
           console_log "High accuracy failed, trying low accuracy:" message ;;
           try_catch
             (position <- tryLowAccuracy ;;
              setLocationData (fun _ =>
                {| coordinates := Some (positionCoordinates position);
                   error := None; isLoading := false |}))
             (fun lowAccuracyError =>
                message <- lift (Js.get lowAccuracyError "message") ;;
                console_log "Low accuracy failed, trying IP geolocation:"
                  message ;;
                try_catch
                  (coordinates <- tryIPGeolocation ;;
                   setLocationData (fun _ =>
                     {| coordinates := Some coordinates;
                        error := None; isLoading := false |}))
                  (fun ipError =>
                     let gpsError :=
                       if Js.truthy lowAccuracyError then lowAccuracyError
                       else highAccuracyError in
                     code <- lift (Js.get_optional gpsError "code") ;;
                     let errorMessage := errorMessageFor code in
                     setLocationData (fun _ =>
                       {| coordinates := None; error := Some errorMessage;
                          isLoading := false |}))))
  end.

(** A call whose promise nobody awaits: the caller goes on whether the
    callee settles or rejects. *)
Definition unawaited (m : M unit) : M unit :=
  fun w s =>
    match m w s with
    | {| trace := tr; state := s1; completion := _ |} =>
        {| trace := tr; state := s1; completion := Normal tt |}
    end.

(** The manual trigger handed to the consumer. *)
Definition getLocation : M unit := unawaited getLocationWithFallback.

(** The [useEffect] run on mount. *)
Definition mountEffect : M unit := unawaited getLocationWithFallback.

(** ** Vocabulary for the statements *)

(** What a strategy answers in a world.  None of the three strategies reads
    or writes the hook state (see [getCurrentPosition_run] and
    [tryIPGeolocation_frame] below). *)
Definition outcome {A} (strategy : M A) (w : World) : Completion A :=
  completion (strategy w initialState).

Definition highAccuracy : PositionOptions :=
  {| enableHighAccuracy := true; timeout := 10000; maximumAge := 300000 |}.

Definition lowAccuracy : PositionOptions :=
  {| enableHighAccuracy := false; timeout := 15000; maximumAge := 600000 |}.

Definition loading (prev : GeolocationState) : GeolocationState :=
  {| coordinates := coordinates prev; error := None; isLoading := true |}.

Definition located (c : Coordinates) : GeolocationState :=
  {| coordinates := Some c; error := None; isLoading := false |}.

Definition failed (msg : string) : GeolocationState :=
  {| coordinates := None; error := Some msg; isLoading := false |}.

(** The value a property read yields when it does not throw. *)
Definition read (v : Js.value) (k : string) : Js.value :=
  match Js.get v k with
  | inl x => x
  | inr _ => Js.Undefined
  end.

(** The calls a trace holds, and the states it sets. *)
Fixpoint positionCalls (tr : list event) : list PositionOptions :=
  match tr with
  | [] => []
  | EvGetCurrentPosition o :: rest => o :: positionCalls rest
  | _ :: rest => positionCalls rest
  end.

Fixpoint fetchCalls (tr : list event) : list string :=
  match tr with
  | [] => []
  | EvFetch url :: rest => url :: fetchCalls rest
  | _ :: rest => fetchCalls rest
  end.

Fixpoint statesSet (tr : list event) : list GeolocationState :=
  match tr with
  | [] => []
  | EvSetState s :: rest => s :: statesSet rest
  | _ :: rest => statesSet rest
  end.

(** The hook state a consumer sees while the run is suspended on the
    platform or the network: the state current at each such call. *)
Fixpoint statesWhileAwaiting (current : GeolocationState) (tr : list event)
  : list GeolocationState :=
  match tr with
  | [] => []
  | EvSetState s :: rest => statesWhileAwaiting s rest
  | EvLog _ _ :: rest => statesWhileAwaiting current rest
  | _ :: rest => current :: statesWhileAwaiting current rest
  end.

(** [navigator.geolocation] is there. *)
Definition supported (w : World) : bool :=
  match geolocation w with
  | Some _ => true
  | None => false
  end.

(** The life of one hook instance: the run on mount, then any number of
    manual refreshes, each in the world of its time. *)
Fixpoint refreshes (worlds : list World) (s : GeolocationState)
  : list event :=
  match worlds with
  | [] => []
  | w :: rest =>
      let r := getLocation w s in
      trace r ++ refreshes rest (state r)
  end.

Definition useGeolocation (onMount : World) (later : list World)
  : list event :=
  let r := mountEffect onMount initialState in
  trace r ++ refreshes later (state r).

(** ** Runs that overlap

    [getLocation] and the mount effect call [getLocationWithFallback]
    without awaiting it, and nothing keeps a run from starting while an
    earlier one is suspended.  A call runs up to its first [await] at once;
    what it writes after that reaches the state when the platform or the
    network lets it resume, which may be after later runs have written.
    Only the update of line 100 reads the state it replaces; the later
    writes are whole states fixed by what the platform answered. *)

(** The events of a run before it first suspends, and those from there on. *)
Fixpoint untilAwait (tr : list event) : list event :=
  match tr with
  | EvSetState s :: rest => EvSetState s :: untilAwait rest
  | EvLog label detail :: rest => EvLog label detail :: untilAwait rest
  | _ => []
  end.

Fixpoint fromAwait (tr : list event) : list event :=
  match tr with
  | EvSetState _ :: rest | EvLog _ _ :: rest => fromAwait rest
  | _ => tr
  end.

(** One hook instance: the state it shows, how many runs it has started,
    and for each run the writes it still has to make once it resumes. *)
Record Hook : Type := {
  locationData : GeolocationState;
  started : nat;
  pending : nat -> list GeolocationState
}.

(** The mount effect or the manual trigger starts a run in a world, or a
    suspended run resumes and makes its next write. *)
Inductive move : Type :=
| Call (w : World)
| Resume (i : nat).

Definition call (w : World) (h : Hook) : Hook :=
  let tr := trace (getLocationWithFallback w (locationData h)) in
  {| locationData := last (statesSet (untilAwait tr)) (locationData h);
     started := S (started h);
     pending := fun i =>
       if Nat.eqb i (started h) then statesSet (fromAwait tr)
       else pending h i |}.

Definition resume (i : nat) (h : Hook) : Hook :=
  match pending h i with
  | [] => h
  | s :: rest =>
      {| locationData := s;
         started := started h;
         pending := fun j => if Nat.eqb j i then rest else pending h j |}
  end.

Definition perform (h : Hook) (m : move) : Hook :=
  match m with
  | Call w => call w h
  | Resume i => resume i h
  end.

Definition after (h : Hook) (moves : list move) : Hook :=
  fold_left perform moves h.

(** The hook as [useState] creates it, and once the mount effect has run. *)
Definition created : Hook :=
  {| locationData := initialState; started := 0; pending := fun _ => [] |}.

Definition mounted (onMount : World) : Hook := call onMount created.

(** The move leaves run [i] suspended. *)
Definition leaves (i : nat) (m : move) : bool :=
  match m with
  | Call _ => true
  | Resume j => negb (Nat.eqb j i)
  end.

(** The error shown, if any, is one of the five fixed texts. *)
Definition fixedError (s : GeolocationState) : Prop :=
  error s = None \/
  exists m, error s = Some m /\
    In m ["Geolocation is not supported by your browser";
          "Location permission denied. Please enable location access in your browser settings.";
          "Location is currently unavailable. Please check your GPS/WiFi connection and try again.";
          "Location request timed out. Please try again.";
          "Unable to determine your location. Please enable location services and try again."].

(** ** Worlds used as examples *)

(** A [GeolocationPositionError]. *)
Definition positionError (code : float) (message : string) : Js.value :=
  Js.Obj [("code", Js.Num code); ("message", Js.Str message)].

Definition offline : string -> FetchOutcome :=
  fun _ => FetchReject (Js.Error "Failed to fetch").

Definition answering (data : Js.value) : string -> FetchOutcome :=
  fun _ => FetchResolve {| status := 200; body := Some data |}.

Definition fixAt (la lo : float) : GeolocationPosition :=
  {| coords := {| latitude := la; longitude := lo |} |}.

(** No location capability at all. *)
Definition worldWithoutCapability : World :=
  {| geolocation := None; fetch := offline |}.

(** The high-accuracy request gets a fix. *)
Definition worldWithFix : World :=
  {| geolocation := Some (fun _ => PositionResolve (fixAt 51.5 7.25));
     fetch := offline |}.

(** Both device requests fail with the given values, the network answers
    as given. *)
Definition worldFailing (e1 e2 : Js.value) (net : string -> FetchOutcome)
  : World :=
  {| geolocation :=
       Some (fun o =>
               if enableHighAccuracy o then PositionReject e1
               else PositionReject e2);
     fetch := net |}.

(** ** How a run unfolds, path by path *)

Ltac run_step :=
  unfold getLocationWithFallback, tryHighAccuracy, tryLowAccuracy,
    getCurrentPosition, console_log, navigator_geolocation, setLocationData,
    try_catch, bind, emit, lift, ret, throw; cbn.

Ltac run_with rewrites := run_step; repeat (progress (rewrites; cbn)).

Lemma getCurrentPosition_run w s ask o :
  geolocation w = Some ask ->
  getCurrentPosition o w s =
    {| trace := [EvGetCurrentPosition o]; state := s;
       completion := match ask o with
                     | PositionResolve p => Normal p
                     | PositionReject e => Throw e
                     end |}.
Proof.
  intros Hgeo. run_step. rewrite Hgeo. cbn.
  destruct (ask o); reflexivity.
Qed.

Lemma getCurrentPosition_unsupported w s o :
  geolocation w = None ->
  getCurrentPosition o w s =
    {| trace := []; state := s; completion := Throw Js.TypeError |}.
Proof. intros Hgeo. run_step. rewrite Hgeo. reflexivity. Qed.

Lemma get_not_nullish e k :
  Js.nullish e = false -> Js.get e k = inl (read e k).
Proof. destruct e; cbn; intros H; try discriminate; reflexivity. Qed.

Lemma get_nullish e k :
  Js.nullish e = true -> Js.get e k = inr Js.TypeError.
Proof. destruct e; cbn; intros H; try discriminate; reflexivity. Qed.

Lemma get_optional_read e k : Js.get_optional e k = inl (read e k).
Proof. destruct e; reflexivity. Qed.

(** The IP strategy touches the network only: it leaves the hook state
    alone and answers the same whatever that state is. *)
Lemma tryIPGeolocation_frame w s :
  tryIPGeolocation w s =
    {| trace := trace (tryIPGeolocation w initialState); state := s;
       completion := outcome tryIPGeolocation w |}.
Proof.
  unfold outcome, tryIPGeolocation, fetch_url, json, try_catch, bind, emit,
    lift, ret, throw; cbn.
  destruct (fetch w "https://ipapi.co/json/") as [[st [data|]]|reason]; cbn;
    try reflexivity.
  destruct (Js.get data "latitude") as [la|]; cbn; try reflexivity.
  destruct (Js.truthy la) eqn:Hla; cbn.
  - destruct (Js.get data "longitude") as [lo|]; cbn; try reflexivity.
    destruct (Js.truthy lo); reflexivity.
  - rewrite Hla. reflexivity.
Qed.

(** Whatever goes wrong inside the IP strategy leaves it as the one fixed
    exception. *)
Lemma tryIPGeolocation_throws w e :
  outcome tryIPGeolocation w = Throw e -> e = Js.Error "IP geolocation failed".
Proof.
  unfold outcome, tryIPGeolocation, fetch_url, json, try_catch, bind, emit,
    lift, ret, throw; cbn.
  destruct (fetch w "https://ipapi.co/json/") as [[st [data|]]|reason]; cbn;
    try congruence.
  destruct (Js.get data "latitude") as [la|]; cbn; try congruence.
  destruct (Js.truthy la) eqn:Hla; cbn.
  - destruct (Js.get data "longitude") as [lo|]; cbn; try congruence.
    destruct (Js.truthy lo); cbn; congruence.
  - rewrite Hla. cbn. congruence.
Qed.

Lemma tryIPGeolocation_calls w :
  fetchCalls (trace (tryIPGeolocation w initialState)) =
    ["https://ipapi.co/json/"] /\
  positionCalls (trace (tryIPGeolocation w initialState)) = [] /\
  statesSet (trace (tryIPGeolocation w initialState)) = [].
Proof.
  unfold tryIPGeolocation, fetch_url, json, try_catch, bind, emit,
    lift, ret, throw; cbn.
  destruct (fetch w "https://ipapi.co/json/") as [[st [data|]]|reason]; cbn;
    try (repeat split; reflexivity).
  destruct (Js.get data "latitude") as [la|]; cbn;
    try (repeat split; reflexivity).
  destruct (Js.truthy la) eqn:Hla; cbn.
  - destruct (Js.get data "longitude") as [lo|]; cbn;
      try (repeat split; reflexivity).
    destruct (Js.truthy lo); cbn; repeat split; reflexivity.
  - rewrite Hla. cbn. repeat split; reflexivity.
Qed.

Section Paths.

Variables (w : World) (s : GeolocationState).
Variable ask : PositionOptions -> PositionOutcome.
Hypothesis capability : geolocation w = Some ask.

Lemma path_unsupported w0 :
  geolocation w0 = None ->
  getLocationWithFallback w0 s =
    {| trace := [EvSetState (loading s);
                 EvSetState (failed "Geolocation is not supported by your browser")];
       state := failed "Geolocation is not supported by your browser";
       completion := Normal tt |}.
Proof. intros Hgeo. run_with ltac:(rewrite ?Hgeo). reflexivity. Qed.

Lemma path_high p :
  ask highAccuracy = PositionResolve p ->
  getLocationWithFallback w s =
    {| trace := [EvSetState (loading s); EvGetCurrentPosition highAccuracy;
                 EvSetState (located (positionCoordinates p))];
       state := located (positionCoordinates p);
       completion := Normal tt |}.
Proof.
  intros Hhigh. unfold highAccuracy in Hhigh.
  run_with ltac:(rewrite ?capability, ?Hhigh). reflexivity.
Qed.

Lemma path_high_unreadable e1 :
  ask highAccuracy = PositionReject e1 ->
  Js.nullish e1 = true ->
  getLocationWithFallback w s =
    {| trace := [EvSetState (loading s); EvGetCurrentPosition highAccuracy];
       state := loading s;
       completion := Throw Js.TypeError |}.
Proof.
  intros Hhigh Hnull. unfold highAccuracy in Hhigh.
  run_with ltac:(rewrite ?capability, ?Hhigh, ?(get_nullish _ _ Hnull)).
  reflexivity.
Qed.

Lemma path_low e1 p :
  ask highAccuracy = PositionReject e1 ->
  Js.nullish e1 = false ->
  ask lowAccuracy = PositionResolve p ->
  getLocationWithFallback w s =
    {| trace := [EvSetState (loading s); EvGetCurrentPosition highAccuracy;
                 EvLog "High accuracy failed, trying low accuracy:"
                   (read e1 "message");
                 EvGetCurrentPosition lowAccuracy;
                 EvSetState (located (positionCoordinates p))];
       state := located (positionCoordinates p);
       completion := Normal tt |}.
Proof.
  intros Hhigh Hnull Hlow. unfold highAccuracy in Hhigh.
  unfold lowAccuracy in Hlow.
  run_with ltac:(rewrite ?capability, ?Hhigh, ?Hlow,
                   ?(get_not_nullish _ _ Hnull)).
  reflexivity.
Qed.

Lemma path_low_unreadable e1 e2 :
  ask highAccuracy = PositionReject e1 ->
  Js.nullish e1 = false ->
  ask lowAccuracy = PositionReject e2 ->
  Js.nullish e2 = true ->
  getLocationWithFallback w s =
    {| trace := [EvSetState (loading s); EvGetCurrentPosition highAccuracy;
                 EvLog "High accuracy failed, trying low accuracy:"
                   (read e1 "message");
                 EvGetCurrentPosition lowAccuracy];
       state := loading s;
       completion := Throw Js.TypeError |}.
Proof.
  intros Hhigh Hnull Hlow Hnull2. unfold highAccuracy in Hhigh.
  unfold lowAccuracy in Hlow.
  run_with ltac:(rewrite ?capability, ?Hhigh, ?Hlow,
                   ?(get_not_nullish _ _ Hnull), ?(get_nullish _ _ Hnull2)).
  reflexivity.
Qed.

(** Both device strategies failed with readable errors: the IP strategy
    runs and the run settles on its answer, or on the message chosen from
    the device errors. *)
Lemma path_ip e1 e2 :
  ask highAccuracy = PositionReject e1 ->
  Js.nullish e1 = false ->
  ask lowAccuracy = PositionReject e2 ->
  Js.nullish e2 = false ->
  let settled :=
    match outcome tryIPGeolocation w with
    | Normal c => located c
    | Throw _ =>
        failed (errorMessageFor
                  (read (if Js.truthy e2 then e2 else e1) "code"))
    end in
  getLocationWithFallback w s =
    {| trace := [EvSetState (loading s); EvGetCurrentPosition highAccuracy;
                 EvLog "High accuracy failed, trying low accuracy:"
                   (read e1 "message");
                 EvGetCurrentPosition lowAccuracy;
                 EvLog "Low accuracy failed, trying IP geolocation:"
                   (read e2 "message")]
                ++ trace (tryIPGeolocation w initialState)
                ++ [EvSetState settled];
       state := settled;
       completion := Normal tt |}.
Proof.
  intros Hhigh Hnull Hlow Hnull2 settled. subst settled.
  unfold highAccuracy in Hhigh. unfold lowAccuracy in Hlow.
  run_with ltac:(rewrite ?capability, ?Hhigh, ?Hlow,
                   ?(get_not_nullish _ _ Hnull),
                   ?(get_not_nullish _ _ Hnull2),
                   ?(tryIPGeolocation_frame w
                       {| coordinates := coordinates s; error := None;
                          isLoading := true |})).
  destruct (outcome tryIPGeolocation w) as [c|e3]; cbn.
  - reflexivity.
  - rewrite get_optional_read. cbn. rewrite ?app_nil_r. reflexivity.
Qed.

End Paths.

(** The device strategies answer what the platform answers for their
    options; without the capability the call itself throws. *)
Lemma outcome_high w ask :
  geolocation w = Some ask ->
  outcome tryHighAccuracy w =
    match ask highAccuracy with
    | PositionResolve p => Normal p
    | PositionReject e => Throw e
    end.
Proof.
  intros Hgeo. unfold outcome, tryHighAccuracy.
  rewrite (getCurrentPosition_run _ _ _ _ Hgeo). reflexivity.
Qed.

Lemma outcome_low w ask :
  geolocation w = Some ask ->
  outcome tryLowAccuracy w =
    match ask lowAccuracy with
    | PositionResolve p => Normal p
    | PositionReject e => Throw e
    end.
Proof.
  intros Hgeo. unfold outcome, tryLowAccuracy.
  rewrite (getCurrentPosition_run _ _ _ _ Hgeo). reflexivity.
Qed.

Lemma high_resolves w ask p :
  geolocation w = Some ask ->
  outcome tryHighAccuracy w = Normal p ->
  ask highAccuracy = PositionResolve p.
Proof.
  intros Hgeo. rewrite (outcome_high _ _ Hgeo).
  destruct (ask highAccuracy); congruence.
Qed.

Lemma high_rejects w ask e :
  geolocation w = Some ask ->
  outcome tryHighAccuracy w = Throw e ->
  ask highAccuracy = PositionReject e.
Proof.
  intros Hgeo. rewrite (outcome_high _ _ Hgeo).
  destruct (ask highAccuracy); congruence.
Qed.

Lemma low_resolves w ask p :
  geolocation w = Some ask ->
  outcome tryLowAccuracy w = Normal p ->
  ask lowAccuracy = PositionResolve p.
Proof.
  intros Hgeo. rewrite (outcome_low _ _ Hgeo).
  destruct (ask lowAccuracy); congruence.
Qed.

Lemma low_rejects w ask e :
  geolocation w = Some ask ->
  outcome tryLowAccuracy w = Throw e ->
  ask lowAccuracy = PositionReject e.
Proof.
  intros Hgeo. rewrite (outcome_low _ _ Hgeo).
  destruct (ask lowAccuracy); congruence.
Qed.

Lemma high_needs_capability w p :
  outcome tryHighAccuracy w = Normal p -> geolocation w <> None.
Proof.
  intros Hout Hgeo. unfold outcome, tryHighAccuracy in Hout.
  rewrite (getCurrentPosition_unsupported _ _ _ Hgeo) in Hout.
  discriminate.
Qed.

Lemma supported_capability w :
  supported w = true -> exists ask, geolocation w = Some ask.
Proof.
  unfold supported. destruct (geolocation w) as [ask|]; [eauto|discriminate].
Qed.

(** Case analysis of a run along the paths above. *)
Ltac by_path w s :=
  let ask := fresh "ask" in
  let Hgeo := fresh "Hgeo" in
  destruct (geolocation w) as [ask|] eqn:Hgeo;
  [ let p1 := fresh "p1" in
    let e1 := fresh "e1" in
    let Hhigh := fresh "Hhigh" in
    destruct (ask highAccuracy) as [p1|e1] eqn:Hhigh;
    [ rewrite (path_high w s ask Hgeo p1 Hhigh)
    | let Hn1 := fresh "Hn1" in
      destruct (Js.nullish e1) eqn:Hn1;
      [ rewrite (path_high_unreadable w s ask Hgeo e1 Hhigh Hn1)
      | let p2 := fresh "p2" in
        let e2 := fresh "e2" in
        let Hlow := fresh "Hlow" in
        destruct (ask lowAccuracy) as [p2|e2] eqn:Hlow;
        [ rewrite (path_low w s ask Hgeo e1 p2 Hhigh Hn1 Hlow)
        | let Hn2 := fresh "Hn2" in
          destruct (Js.nullish e2) eqn:Hn2;
          [ rewrite (path_low_unreadable w s ask Hgeo e1 e2 Hhigh Hn1 Hlow Hn2)
          | rewrite (path_ip w s ask Hgeo e1 e2 Hhigh Hn1 Hlow Hn2) ] ] ] ]
  | rewrite (path_unsupported s w Hgeo) ].

(** ** The settled state *)

(** C1: when a resolution completes, in success or in terminal failure, the
    state it leaves has [isLoading] false and exactly one of [coordinates]
    and [error] set: coordinates without error, or error without
    coordinates.  That state is the one written by the run's last update. *)
Theorem settled_state_exclusive w prev :
  completion (getLocationWithFallback w prev) = Normal tt ->
  let r := getLocationWithFallback w prev in
  isLoading (state r) = false /\
  ((coordinates (state r) <> None /\ error (state r) = None) \/
   (coordinates (state r) = None /\ error (state r) <> None)) /\
  last (trace r) (EvSetState prev) = EvSetState (state r).
Proof.
  by_path w prev; intros Hdone; cbn in Hdone; try discriminate Hdone;
    cbv zeta; cbn [trace state completion].
  - cbn. split; [reflexivity|]. split; [left; split; congruence|reflexivity].
  - cbn. split; [reflexivity|]. split; [left; split; congruence|reflexivity].
  - rewrite app_assoc, last_last.
    destruct (outcome tryIPGeolocation w); cbn;
      (split; [reflexivity|]); (split; [|reflexivity]).
    + left; split; congruence.
    + right; split; congruence.
  - cbn. split; [reflexivity|]. split; [right; split; congruence|reflexivity].
Qed.

Lemma settled_state_exclusive_witness :
  let r := getLocationWithFallback
             (worldFailing (positionError 3 "slow") (positionError 1 "no")
                offline) initialState in
  isLoading (state r) = false /\
  ((coordinates (state r) <> None /\ error (state r) = None) \/
   (coordinates (state r) = None /\ error (state r) <> None)) /\
  last (trace r) (EvSetState initialState) = EvSetState (state r).
Proof.
  apply (settled_state_exclusive
           (worldFailing (positionError 3 "slow") (positionError 1 "no")
              offline) initialState).
  reflexivity.
Defined.

(** X6: a run completes, whatever the state it starts from, unless a device
    strategy rejects with [undefined] or [null], whose [message] cannot be
    read. *)
Lemma completes_on_readable_errors w prev :
  (forall e, outcome tryHighAccuracy w = Throw e -> Js.nullish e = false) ->
  (forall e, outcome tryLowAccuracy w = Throw e -> Js.nullish e = false) ->
  completion (getLocationWithFallback w prev) = Normal tt.
Proof.
  intros H1 H2.
  by_path w prev; cbn; try reflexivity.
  - rewrite (outcome_high _ _ Hgeo), Hhigh in H1.
    specialize (H1 e1 eq_refl). congruence.
  - rewrite (outcome_low _ _ Hgeo), Hlow in H2.
    specialize (H2 e2 eq_refl). congruence.
Qed.

(** ** Strategy 1 *)

(** C2: if the high-accuracy strategy succeeds, the run completes with the
    latitude and longitude of its fix as coordinates and no error, after a
    single [getCurrentPosition] call with the high-accuracy options: the
    low-accuracy strategy and the IP strategy are never invoked. *)
Theorem high_accuracy_success w prev p :
  outcome tryHighAccuracy w = Normal p ->
  let r := getLocationWithFallback w prev in
  completion r = Normal tt /\
  state r = {| coordinates :=
                 Some {| lat := Js.Num (latitude (coords p));
                         lon := Js.Num (longitude (coords p)) |};
               error := None;
               isLoading := false |} /\
  positionCalls (trace r) =
    [{| enableHighAccuracy := true; timeout := 10000;
        maximumAge := 300000 |}] /\
  fetchCalls (trace r) = [].
Proof.
  intros Hout.
  destruct (geolocation w) as [ask|] eqn:Hgeo.
  - cbn zeta.
    rewrite (path_high w prev ask Hgeo p (high_resolves _ _ _ Hgeo Hout)).
    repeat split; reflexivity.
  - exfalso. exact (high_needs_capability _ _ Hout Hgeo).
Qed.

Lemma high_accuracy_success_witness :
  let r := getLocationWithFallback worldWithFix initialState in
  completion r = Normal tt /\
  state r = {| coordinates := Some {| lat := Js.Num 51.5; lon := Js.Num 7.25 |};
               error := None;
               isLoading := false |} /\
  positionCalls (trace r) =
    [{| enableHighAccuracy := true; timeout := 10000;
        maximumAge := 300000 |}] /\
  fetchCalls (trace r) = [].
Proof.
  apply (high_accuracy_success worldWithFix initialState (fixAt 51.5 7.25)).
  reflexivity.
Defined.

(** X1: if the high-accuracy strategy fails with a readable error and the
    low-accuracy strategy succeeds, the run settles on the second fix after
    the two device calls and never touches the network. *)
Lemma low_accuracy_success w prev e1 p :
  supported w = true ->
  outcome tryHighAccuracy w = Throw e1 ->
  Js.nullish e1 = false ->
  outcome tryLowAccuracy w = Normal p ->
  let r := getLocationWithFallback w prev in
  completion r = Normal tt /\
  state r = located (positionCoordinates p) /\
  positionCalls (trace r) = [highAccuracy; lowAccuracy] /\
  fetchCalls (trace r) = [].
Proof.
  intros Hsup H1 Hn1 H2.
  destruct (supported_capability _ Hsup) as [ask Hgeo]. cbv zeta.
  rewrite (path_low w prev ask Hgeo e1 p
             (high_rejects _ _ _ Hgeo H1) Hn1 (low_resolves _ _ _ Hgeo H2)).
  repeat split; reflexivity.
Qed.

(** ** No capability *)

(** C6: on a platform without the location capability the run completes at
    once with the fixed not-supported message, [isLoading] false and no
    coordinates; it makes no [getCurrentPosition] call and no network
    request, and is never suspended. *)
Theorem unsupported_is_immediate w prev :
  geolocation w = None ->
  let r := getLocationWithFallback w prev in
  completion r = Normal tt /\
  state r = {| coordinates := None;
               error := Some "Geolocation is not supported by your browser";
               isLoading := false |} /\
  positionCalls (trace r) = [] /\
  fetchCalls (trace r) = [] /\
  statesWhileAwaiting prev (trace r) = [].
Proof.
  intros Hgeo. cbn zeta. rewrite (path_unsupported prev w Hgeo).
  repeat split; reflexivity.
Qed.

Lemma unsupported_is_immediate_witness :
  let r := getLocationWithFallback worldWithoutCapability initialState in
  completion r = Normal tt /\
  state r = {| coordinates := None;
               error := Some "Geolocation is not supported by your browser";
               isLoading := false |} /\
  positionCalls (trace r) = [] /\
  fetchCalls (trace r) = [] /\
  statesWhileAwaiting initialState (trace r) = [].
Proof.
  apply (unsupported_is_immediate worldWithoutCapability initialState).
  reflexivity.
Defined.

(** ** Terminal failure *)

(** The state a run settles on once both device strategies and the IP
    strategy have failed. *)
Lemma all_failed_state w prev e1 e2 e3 :
  supported w = true ->
  outcome tryHighAccuracy w = Throw e1 ->
  outcome tryLowAccuracy w = Throw e2 ->
  outcome tryIPGeolocation w = Throw e3 ->
  Js.nullish e1 = false ->
  Js.nullish e2 = false ->
  let r := getLocationWithFallback w prev in
  completion r = Normal tt /\
  state r = failed (errorMessageFor
                      (read (if Js.truthy e2 then e2 else e1) "code")).
Proof.
  intros Hsup H1 H2 H3 Hn1 Hn2.
  destruct (supported_capability _ Hsup) as [ask Hgeo].
  cbn zeta.
  rewrite (path_ip w prev ask Hgeo e1 e2
             (high_rejects _ _ _ Hgeo H1) Hn1
             (low_rejects _ _ _ Hgeo H2) Hn2).
  rewrite H3. split; reflexivity.
Qed.

(** C3: when all three strategies fail, the run settles without coordinates
    on a message chosen by the code of the low-accuracy error when that
    error is there (truthy), else of the high-accuracy error: code 1 gives
    the permission-denied text, 2 the position-unavailable text, 3 the
    timed-out text, anything else, or no code, the generic text.  With a
    low-accuracy error present the high-accuracy error plays no part. *)
Theorem final_message_by_code w prev e1 e2 e3 :
  supported w = true ->
  outcome tryHighAccuracy w = Throw e1 ->
  outcome tryLowAccuracy w = Throw e2 ->
  outcome tryIPGeolocation w = Throw e3 ->
  Js.nullish e1 = false ->
  Js.nullish e2 = false ->
  let r := getLocationWithFallback w prev in
  let gpsError := if Js.truthy e2 then e2 else e1 in
  let code := read gpsError "code" in
  completion r = Normal tt /\
  coordinates (state r) = None /\
  isLoading (state r) = false /\
  (code = Js.Num 1 ->
   error (state r) =
     Some "Location permission denied. Please enable location access in your browser settings.") /\
  (code = Js.Num 2 ->
   error (state r) =
     Some "Location is currently unavailable. Please check your GPS/WiFi connection and try again.") /\
  (code = Js.Num 3 ->
   error (state r) = Some "Location request timed out. Please try again.") /\
  (Js.strict_equals_num code 1 = false ->
   Js.strict_equals_num code 2 = false ->
   Js.strict_equals_num code 3 = false ->
   error (state r) =
     Some "Unable to determine your location. Please enable location services and try again.") /\
  (Js.truthy e2 = true -> gpsError = e2).
Proof.
  intros Hsup H1 H2 H3 Hn1 Hn2.
  destruct (all_failed_state w prev e1 e2 e3 Hsup H1 H2 H3 Hn1 Hn2)
    as [Hdone Hstate].
  cbn zeta in *. rewrite Hstate. cbn.
  split; [exact Hdone|]. split; [reflexivity|]. split; [reflexivity|].
  unfold errorMessageFor.
  split; [intros ->; reflexivity|].
  split; [intros ->; reflexivity|].
  split; [intros ->; reflexivity|].
  split.
  - intros -> -> ->. reflexivity.
  - intros ->. reflexivity.
Qed.

Lemma final_message_by_code_witness :
  error (state (getLocationWithFallback
                  (worldFailing (positionError 3 "slow")
                     (positionError 1 "no") offline) initialState)) =
    Some "Location permission denied. Please enable location access in your browser settings.".
Proof.
  destruct (final_message_by_code
              (worldFailing (positionError 3 "slow") (positionError 1 "no")
                 offline)
              initialState (positionError 3 "slow") (positionError 1 "no")
              (Js.Error "IP geolocation failed")
              eq_refl eq_refl eq_refl eq_refl eq_refl eq_refl)
    as (_ & _ & _ & Hdenied & _).
  apply Hdenied. reflexivity.
Defined.

(** [lowAccuracyError || highAccuracyError] reaches its right operand when
    the low-accuracy rejection is a falsy value whose [message] can still
    be read ([false], [0], [NaN], the empty string): the high-accuracy
    error then chooses the message. *)
Lemma falsy_low_error_falls_back w prev e1 e2 e3 :
  supported w = true ->
  outcome tryHighAccuracy w = Throw e1 ->
  outcome tryLowAccuracy w = Throw e2 ->
  outcome tryIPGeolocation w = Throw e3 ->
  Js.nullish e1 = false ->
  Js.nullish e2 = false ->
  Js.truthy e2 = false ->
  state (getLocationWithFallback w prev) =
    failed (errorMessageFor (read e1 "code")).
Proof.
  intros Hsup H1 H2 H3 Hn1 Hn2 Hfalsy.
  destruct (all_failed_state w prev e1 e2 e3 Hsup H1 H2 H3 Hn1 Hn2)
    as [_ Hstate].
  cbn zeta in Hstate. rewrite Hstate, Hfalsy. reflexivity.
Qed.

(** When the low-accuracy strategy rejects with [undefined], reading
    [message] of it throws before the IP strategy is tried: the run ends
    in a TypeError, no message is chosen and the state stays loading. *)
Lemma missing_low_error_aborts :
  let w := worldFailing (positionError 2 "unavailable") Js.Undefined offline in
  let r := getLocationWithFallback w initialState in
  outcome tryHighAccuracy w = Throw (positionError 2 "unavailable") /\
  outcome tryLowAccuracy w = Throw Js.Undefined /\
  outcome tryIPGeolocation w = Throw (Js.Error "IP geolocation failed") /\
  completion r = Throw Js.TypeError /\
  state r = {| coordinates := None; error := None; isLoading := true |} /\
  statesSet (trace r) =
    [{| coordinates := None; error := None; isLoading := true |}] /\
  fetchCalls (trace r) = [].
Proof. cbn zeta. repeat split; reflexivity. Qed.




(** ** Strategy 3 *)

(** What [tryIPGeolocation] answers for a response whose body is an object:
    the two fields as they are when both are truthy. *)
Lemma ip_truthy_fields_succeed w st fields :
  fetch w "https://ipapi.co/json/" =
    FetchResolve {| status := st; body := Some (Js.Obj fields) |} ->
  Js.truthy (Js.lookup "latitude" fields) = true ->
  Js.truthy (Js.lookup "longitude" fields) = true ->
  outcome tryIPGeolocation w =
    Normal {| lat := Js.lookup "latitude" fields;
              lon := Js.lookup "longitude" fields |}.
Proof.
  intros Hfetch Hla Hlo.
  unfold outcome, tryIPGeolocation, fetch_url, json, try_catch, bind, emit,
    lift, ret, throw; cbn.
  rewrite Hfetch. cbn. rewrite Hla. cbn. rewrite Hlo. reflexivity.
Qed.

Lemma ip_falsy_field_fails w st fields :
  fetch w "https://ipapi.co/json/" =
    FetchResolve {| status := st; body := Some (Js.Obj fields) |} ->
  Js.truthy (Js.lookup "latitude" fields) = false \/
  Js.truthy (Js.lookup "longitude" fields) = false ->
  outcome tryIPGeolocation w = Throw (Js.Error "IP geolocation failed").
Proof.
  intros Hfetch Hfalsy.
  unfold outcome, tryIPGeolocation, fetch_url, json, try_catch, bind, emit,
    lift, ret, throw; cbn.
  rewrite Hfetch. cbn.
  destruct (Js.truthy (Js.lookup "latitude" fields)) eqn:Hla; cbn.
  - destruct Hfalsy as [Hf|Hf]; [discriminate|]. rewrite Hf. reflexivity.
  - rewrite Hla. reflexivity.
Qed.

Lemma ip_request_failure_fails w :
  (exists reason, fetch w "https://ipapi.co/json/" = FetchReject reason) \/
  (exists st, fetch w "https://ipapi.co/json/" =
                FetchResolve {| status := st; body := None |}) ->
  outcome tryIPGeolocation w = Throw (Js.Error "IP geolocation failed").
Proof.
  intros [[reason Hfetch]|[st Hfetch]];
    unfold outcome, tryIPGeolocation, fetch_url, json, try_catch, bind, emit,
      lift, ret, throw; cbn; rewrite Hfetch; reflexivity.
Qed.

(** The body [{latitude: 12.3, longitude: 45.6}] after two failed device
    strategies. *)
Lemma ip_example_coordinates :
  state (getLocationWithFallback
           (worldFailing (positionError 3 "slow") (positionError 3 "slow")
              (answering (Js.Obj [("latitude", Js.Num 12.3);
                                  ("longitude", Js.Num 45.6)])))
           initialState) =
    located {| lat := Js.Num 12.3; lon := Js.Num 45.6 |}.
Proof. reflexivity. Qed.

(** C4, evaluated where the code departs from it: the body
    [{latitude: 0, longitude: 45.6}] holds both numeric fields, yet the
    test [data.latitude && data.longitude] reads the zero as a missing
    field, the IP strategy fails and the run ends in terminal failure. *)
Theorem ip_zero_latitude_is_rejected :
  let data := Js.Obj [("latitude", Js.Num 0); ("longitude", Js.Num 45.6)] in
  let w := worldFailing (positionError 3 "slow") (positionError 2 "none")
             (answering data) in
  let r := getLocationWithFallback w initialState in
  Js.get data "latitude" = inl (Js.Num 0) /\
  Js.get data "longitude" = inl (Js.Num 45.6) /\
  outcome tryIPGeolocation w = Throw (Js.Error "IP geolocation failed") /\
  completion r = Normal tt /\
  state r =
    {| coordinates := None;
       error := Some "Location is currently unavailable. Please check your GPS/WiFi connection and try again.";
       isLoading := false |}.
Proof. cbn zeta. repeat split; reflexivity. Qed.

(** ** Traces *)

Lemma positionCalls_app tr1 tr2 :
  positionCalls (tr1 ++ tr2)%list = (positionCalls tr1 ++ positionCalls tr2)%list.
Proof.
  induction tr1 as [|[] tr1 IH]; cbn; rewrite ?IH; reflexivity.
Qed.

Lemma fetchCalls_app tr1 tr2 :
  fetchCalls (tr1 ++ tr2)%list = (fetchCalls tr1 ++ fetchCalls tr2)%list.
Proof.
  induction tr1 as [|[] tr1 IH]; cbn; rewrite ?IH; reflexivity.
Qed.

Lemma statesSet_app tr1 tr2 :
  statesSet (tr1 ++ tr2)%list = (statesSet tr1 ++ statesSet tr2)%list.
Proof.
  induction tr1 as [|[] tr1 IH]; cbn; rewrite ?IH; reflexivity.
Qed.

(** ** In flight *)






(** Once a run that overlaps another settles, the state is its settled
    state although the other is still in flight, and the one that settles
    last has the last word: here a refresh fails while the run on mount is
    suspended, and the fix of the run on mount then replaces the error. *)
Lemma overlapping_refresh_settles_first :
  let failing := worldFailing (positionError 3 "slow") (positionError 1 "no")
                   offline in
  let h := after (mounted worldWithFix) [Call failing; Resume 1] in
  pending h 0 = [located (positionCoordinates (fixAt 51.5 7.25))] /\
  locationData h =
    failed "Location permission denied. Please enable location access in your browser settings." /\
  locationData (after h [Resume 0]) =
    located (positionCoordinates (fixAt 51.5 7.25)).
Proof. cbv zeta. repeat split; reflexivity. Qed.

(** ** Request configurations *)


(** All three strategies are attempted, each once with its configuration,
    when both device strategies fail with readable errors. *)
Lemma canonical_requests_all w prev e1 e2 :
  supported w = true ->
  outcome tryHighAccuracy w = Throw e1 ->
  outcome tryLowAccuracy w = Throw e2 ->
  Js.nullish e1 = false ->
  Js.nullish e2 = false ->
  positionCalls (trace (getLocationWithFallback w prev)) =
    [highAccuracy; lowAccuracy] /\
  fetchCalls (trace (getLocationWithFallback w prev)) =
    ["https://ipapi.co/json/"].
Proof.
  intros Hsup H1 H2 Hn1 Hn2.
  destruct (supported_capability _ Hsup) as [ask Hgeo].
  rewrite (path_ip w prev ask Hgeo e1 e2
             (high_rejects _ _ _ Hgeo H1) Hn1
             (low_rejects _ _ _ Hgeo H2) Hn2).
  cbn.
  destruct (tryIPGeolocation_calls w) as (Hfetch & Hpos & _).
  rewrite positionCalls_app, fetchCalls_app, Hfetch, Hpos.
  split; reflexivity.
Qed.

(** ** The manual trigger *)

Lemma unawaited_trace m w s : trace (unawaited m w s) = trace (m w s).
Proof. unfold unawaited. destruct (m w s); reflexivity. Qed.

Lemma unawaited_state m w s : state (unawaited m w s) = state (m w s).
Proof. unfold unawaited. destruct (m w s); reflexivity. Qed.

Lemma starts_by_loading w prev :
  exists rest,
    trace (getLocationWithFallback w prev) = EvSetState (loading prev) :: rest.
Proof. by_path w prev; cbn; eauto. Qed.

(** C9: the manual trigger runs the very cascade that runs on mount, and
    the first thing that cascade does, before any strategy is attempted, is
    to set [isLoading] to true and clear the previous error. *)
Theorem manual_trigger_restarts w prev :
  getLocation w prev = mountEffect w prev /\
  trace (getLocation w prev) = trace (getLocationWithFallback w prev) /\
  state (getLocation w prev) = state (getLocationWithFallback w prev) /\
  exists rest,
    trace (getLocation w prev) =
      EvSetState {| coordinates := coordinates prev; error := None;
                    isLoading := true |} :: rest.
Proof.
  unfold getLocation, mountEffect.
  rewrite unawaited_trace, unawaited_state.
  split; [reflexivity|]. split; [reflexivity|]. split; [reflexivity|].
  exact (starts_by_loading w prev).
Qed.

(** ** The user-visible error *)

Lemma fixedError_failed code : fixedError (failed (errorMessageFor code)).
Proof.
  right. eexists. split; [reflexivity|].
  unfold errorMessageFor.
  destruct (Js.strict_equals_num code 1); [cbn; tauto|].
  destruct (Js.strict_equals_num code 2); [cbn; tauto|].
  destruct (Js.strict_equals_num code 3); cbn; tauto.
Qed.

Lemma fixedError_loading prev : fixedError (loading prev).
Proof. left; reflexivity. Qed.

Lemma fixedError_located c : fixedError (located c).
Proof. left; reflexivity. Qed.

Lemma fixedError_unsupported :
  fixedError (failed "Geolocation is not supported by your browser").
Proof. right. eexists. split; [reflexivity|]. cbn; tauto. Qed.

#[local] Hint Resolve fixedError_loading fixedError_located
  fixedError_failed fixedError_unsupported : core.

Lemma fixedError_run w s :
  Forall fixedError (statesSet (trace (getLocationWithFallback w s))).
Proof.
  by_path w s; cbn [trace].
  - cbn. auto.
  - cbn. auto.
  - cbn. auto.
  - cbn. auto.
  - destruct (tryIPGeolocation_calls w) as (_ & _ & Hquiet).
    rewrite !statesSet_app, Hquiet. cbn.
    destruct (outcome tryIPGeolocation w); auto.
  - cbn. auto.
Qed.

Lemma fixedError_refreshes worlds s :
  Forall fixedError (statesSet (refreshes worlds s)).
Proof.
  revert s. induction worlds as [|w rest IH]; intros s; cbn.
  - constructor.
  - rewrite statesSet_app. apply Forall_app. split.
    + unfold getLocation. rewrite unawaited_trace. apply fixedError_run.
    + apply IH.
Qed.

(** C10: in every state the hook ever holds, from the initial one through
    the run on mount and any manual refreshes, the error is either absent
    or one of five fixed texts: not supported, permission denied, position
    unavailable, timed out, unable to determine.  Nothing an intermediate
    strategy or the IP service reports reaches it. *)
Theorem error_is_one_of_five onMount later :
  Forall (fun s =>
            error s = None \/
            exists m, error s = Some m /\
              In m ["Geolocation is not supported by your browser";
                    "Location permission denied. Please enable location access in your browser settings.";
                    "Location is currently unavailable. Please check your GPS/WiFi connection and try again.";
                    "Location request timed out. Please try again.";
                    "Unable to determine your location. Please enable location services and try again."])
         (initialState :: statesSet (useGeolocation onMount later)).
Proof.
  constructor.
  - left; reflexivity.
  - unfold useGeolocation. cbv zeta. rewrite statesSet_app.
    apply Forall_app. split.
    + unfold mountEffect. rewrite unawaited_trace. apply fixedError_run.
    + apply fixedError_refreshes.
Qed.

(** ** Further properties of the cascade *)

Lemma low_accuracy_success_witness :
  let r := getLocationWithFallback
             {| geolocation :=
                  Some (fun o =>
                          if enableHighAccuracy o
                          then PositionReject (positionError 3 "slow")
                          else PositionResolve (fixAt 51.5 7.25));
                fetch := offline |} initialState in
  completion r = Normal tt /\
  state r = located (positionCoordinates (fixAt 51.5 7.25)) /\
  positionCalls (trace r) = [highAccuracy; lowAccuracy] /\
  fetchCalls (trace r) = [].
Proof.
  apply (low_accuracy_success
           {| geolocation :=
                Some (fun o =>
                        if enableHighAccuracy o
                        then PositionReject (positionError 3 "slow")
                        else PositionResolve (fixAt 51.5 7.25));
              fetch := offline |}
           initialState (positionError 3 "slow") (fixAt 51.5 7.25));
    reflexivity.
Defined.

Lemma completes_on_readable_errors_witness :
  completion (getLocationWithFallback
                (worldFailing (positionError 3 "slow") (Js.Str "denied")
                   offline) initialState) = Normal tt.
Proof.
  apply (completes_on_readable_errors
           (worldFailing (positionError 3 "slow") (Js.Str "denied") offline)
           initialState);
    intros e He; cbv in He; injection He as <-; reflexivity.
Defined.

(** X2: when both device strategies have failed with readable errors and
    the response body is an object whose [latitude] and [longitude] are
    truthy, the run settles on those two field values as they are, whatever
    their type and whatever the device errors were. *)
Theorem ip_fallback_success w prev e1 e2 st fields :
  supported w = true ->
  outcome tryHighAccuracy w = Throw e1 ->
  outcome tryLowAccuracy w = Throw e2 ->
  Js.nullish e1 = false ->
  Js.nullish e2 = false ->
  fetch w "https://ipapi.co/json/" =
    FetchResolve {| status := st; body := Some (Js.Obj fields) |} ->
  Js.truthy (Js.lookup "latitude" fields) = true ->
  Js.truthy (Js.lookup "longitude" fields) = true ->
  let r := getLocationWithFallback w prev in
  completion r = Normal tt /\
  state r = {| coordinates := Some {| lat := Js.lookup "latitude" fields;
                                      lon := Js.lookup "longitude" fields |};
               error := None;
               isLoading := false |} /\
  positionCalls (trace r) = [highAccuracy; lowAccuracy] /\
  fetchCalls (trace r) = ["https://ipapi.co/json/"].
Proof.
  intros Hsup H1 H2 Hn1 Hn2 Hfetch Hla Hlo.
  destruct (supported_capability _ Hsup) as [ask Hgeo]. cbv zeta.
  destruct (canonical_requests_all w prev e1 e2 Hsup H1 H2 Hn1 Hn2)
    as [Hpos Hnet].
  rewrite Hpos, Hnet.
  rewrite (path_ip w prev ask Hgeo e1 e2
             (high_rejects _ _ _ Hgeo H1) Hn1
             (low_rejects _ _ _ Hgeo H2) Hn2).
  rewrite (ip_truthy_fields_succeed w st fields Hfetch Hla Hlo).
  repeat split; reflexivity.
Qed.

Lemma ip_fallback_success_witness :
  let r := getLocationWithFallback
             (worldFailing (positionError 1 "no") (positionError 1 "no")
                (answering (Js.Obj [("city", Js.Str "Pune");
                                    ("latitude", Js.Str "18.52");
                                    ("longitude", Js.Num 73.85)])))
             initialState in
  completion r = Normal tt /\
  state r = {| coordinates := Some {| lat := Js.Str "18.52";
                                      lon := Js.Num 73.85 |};
               error := None;
               isLoading := false |} /\
  positionCalls (trace r) = [highAccuracy; lowAccuracy] /\
  fetchCalls (trace r) = ["https://ipapi.co/json/"].
Proof.
  apply (ip_fallback_success
           (worldFailing (positionError 1 "no") (positionError 1 "no")
              (answering (Js.Obj [("city", Js.Str "Pune");
                                  ("latitude", Js.Str "18.52");
                                  ("longitude", Js.Num 73.85)])))
           initialState (positionError 1 "no") (positionError 1 "no") 200
           [("city", Js.Str "Pune"); ("latitude", Js.Str "18.52");
            ("longitude", Js.Num 73.85)]);
    reflexivity.
Defined.

(** X3: the IP strategy either yields coordinates or throws the one fixed
    [Error("IP geolocation failed")]: a network error, a body that is not
    JSON, a [null] body or a missing field all leave it as that same
    exception. *)
Theorem ip_failure_is_opaque w :
  (exists c, outcome tryIPGeolocation w = Normal c) \/
  outcome tryIPGeolocation w = Throw (Js.Error "IP geolocation failed").
Proof.
  destruct (outcome tryIPGeolocation w) as [c|e] eqn:Hout.
  - left. exists c. reflexivity.
  - right. rewrite (tryIPGeolocation_throws w e Hout). reflexivity.
Qed.

(** X5: the IP strategy succeeds exactly when the request resolves, with
    any status, to a JSON object whose [latitude] and [longitude] are both
    truthy; the coordinates are then those two values. *)
Theorem ip_succeeds_iff w c :
  outcome tryIPGeolocation w = Normal c <->
  exists st fields,
    fetch w "https://ipapi.co/json/" =
      FetchResolve {| status := st; body := Some (Js.Obj fields) |} /\
    Js.truthy (Js.lookup "latitude" fields) = true /\
    Js.truthy (Js.lookup "longitude" fields) = true /\
    c = {| lat := Js.lookup "latitude" fields;
           lon := Js.lookup "longitude" fields |}.
Proof.
  split.
  - destruct (fetch w "https://ipapi.co/json/")
      as [[st [data|]]|reason] eqn:Hfetch.
    + destruct data as [| |b|x|str|items|fields];
        try (intros Hout; exfalso; revert Hout;
             unfold outcome, tryIPGeolocation, fetch_url, json, try_catch,
               bind, emit, lift, ret, throw; cbn; rewrite Hfetch; cbn;
             discriminate).
      destruct (Js.truthy (Js.lookup "latitude" fields)) eqn:Hla;
        [destruct (Js.truthy (Js.lookup "longitude" fields)) eqn:Hlo|].
      * rewrite (ip_truthy_fields_succeed w st fields Hfetch Hla Hlo).
        intros Hout. injection Hout as <-.
        exists st, fields. repeat split; assumption.
      * rewrite (ip_falsy_field_fails w st fields Hfetch (or_intror Hlo)).
        discriminate.
      * rewrite (ip_falsy_field_fails w st fields Hfetch (or_introl Hla)).
        discriminate.
    + rewrite (ip_request_failure_fails w
                 (or_intror (ex_intro _ st Hfetch))).
      discriminate.
    + rewrite (ip_request_failure_fails w
                 (or_introl (ex_intro _ reason Hfetch))).
      discriminate.
  - intros (st & fields & Hfetch & Hla & Hlo & ->).
    exact (ip_truthy_fields_succeed w st fields Hfetch Hla Hlo).
Qed.

(** What the IP strategy answers once the request has resolved, read off
    the body alone. *)
Lemma ip_outcome_resolved w st data :
  fetch w "https://ipapi.co/json/" =
    FetchResolve {| status := st; body := data |} ->
  outcome tryIPGeolocation w =
    match data with
    | Some (Js.Obj fields) =>
        if Js.truthy (Js.lookup "latitude" fields)
           && Js.truthy (Js.lookup "longitude" fields)
        then Normal {| lat := Js.lookup "latitude" fields;
                       lon := Js.lookup "longitude" fields |}
        else Throw (Js.Error "IP geolocation failed")
    | _ => Throw (Js.Error "IP geolocation failed")
    end.
Proof.
  intros Hfetch.
  destruct data as [[| |b|x|str|items|fields]|];
    try (unfold outcome, tryIPGeolocation, fetch_url, json, try_catch,
           bind, emit, lift, ret, throw; cbn; rewrite Hfetch; reflexivity).
  - destruct (Js.truthy (Js.lookup "latitude" fields)) eqn:Hla;
      [destruct (Js.truthy (Js.lookup "longitude" fields)) eqn:Hlo|]; cbn.
    + exact (ip_truthy_fields_succeed w st fields Hfetch Hla Hlo).
    + exact (ip_falsy_field_fails w st fields Hfetch (or_intror Hlo)).
    + exact (ip_falsy_field_fails w st fields Hfetch (or_introl Hla)).
Qed.

(** X4: the IP strategy never looks at the HTTP status: two responses with
    the same body get the same answer, so an error status with a usable
    body is accepted. *)
Theorem ip_ignores_status w w' st st' data :
  fetch w "https://ipapi.co/json/" =
    FetchResolve {| status := st; body := data |} ->
  fetch w' "https://ipapi.co/json/" =
    FetchResolve {| status := st'; body := data |} ->
  outcome tryIPGeolocation w = outcome tryIPGeolocation w'.
Proof.
  intros Hfetch Hfetch'.
  rewrite (ip_outcome_resolved w st data Hfetch).
  rewrite (ip_outcome_resolved w' st' data Hfetch').
  reflexivity.
Qed.

Lemma ip_ignores_status_witness :
  outcome tryIPGeolocation
    {| geolocation := None;
       fetch := fun _ =>
         FetchResolve {| status := 200;
                         body := Some (Js.Obj [("latitude", Js.Num 12.3);
                                               ("longitude", Js.Num 45.6)]) |}
    |} =
  outcome tryIPGeolocation
    {| geolocation := None;
       fetch := fun _ =>
         FetchResolve {| status := 429;
                         body := Some (Js.Obj [("latitude", Js.Num 12.3);
                                               ("longitude", Js.Num 45.6)]) |}
    |}.
Proof.
  apply (ip_ignores_status _ _ 200 429
           (Some (Js.Obj [("latitude", Js.Num 12.3);
                          ("longitude", Js.Num 45.6)])));
    reflexivity.
Defined.

(** The answer of a run does not depend on the state it starts from. *)
Lemma run_forgets w prev prev' :
  completion (getLocationWithFallback w prev) =
    completion (getLocationWithFallback w prev') /\
  (completion (getLocationWithFallback w prev) = Normal tt ->
   state (getLocationWithFallback w prev) =
     state (getLocationWithFallback w prev')).
Proof.
  by_path w prev.
  - rewrite (path_high w prev' ask Hgeo p1 Hhigh). split; reflexivity.
  - rewrite (path_high_unreadable w prev' ask Hgeo e1 Hhigh Hn1).
    split; [reflexivity|discriminate].
  - rewrite (path_low w prev' ask Hgeo e1 p2 Hhigh Hn1 Hlow).
    split; reflexivity.
  - rewrite (path_low_unreadable w prev' ask Hgeo e1 e2 Hhigh Hn1 Hlow Hn2).
    split; [reflexivity|discriminate].
  - rewrite (path_ip w prev' ask Hgeo e1 e2 Hhigh Hn1 Hlow Hn2).
    split; reflexivity.
  - rewrite (path_unsupported prev' w Hgeo). split; reflexivity.
Qed.

(** X7: a run that ends in an exception ends in the TypeError of reading
    [message] of [undefined] or [null], which one of the device strategies
    rejected with.  It has written the loading state and nothing else, so
    the hook stays loading, and the IP strategy was never tried. *)
Theorem rejected_run_is_stuck w prev e :
  completion (getLocationWithFallback w prev) = Throw e ->
  let r := getLocationWithFallback w prev in
  e = Js.TypeError /\
  state r = {| coordinates := coordinates prev; error := None;
               isLoading := true |} /\
  statesSet (trace r) = [state r] /\
  fetchCalls (trace r) = [] /\
  exists reason,
    Js.nullish reason = true /\
    (outcome tryHighAccuracy w = Throw reason \/
     outcome tryLowAccuracy w = Throw reason).
Proof.
  by_path w prev; cbn [trace state completion]; cbv zeta;
    intros Hthrow; try discriminate Hthrow.
  - injection Hthrow as <-. repeat split.
    exists e1. split; [assumption|]. left.
    rewrite (outcome_high _ _ Hgeo), Hhigh. reflexivity.
  - injection Hthrow as <-. repeat split.
    exists e2. split; [assumption|]. right.
    rewrite (outcome_low _ _ Hgeo), Hlow. reflexivity.
Qed.

Lemma rejected_run_is_stuck_witness :
  let r := getLocationWithFallback
             (worldFailing Js.Null (positionError 1 "no") offline)
             (failed "Location request timed out. Please try again.") in
  Js.TypeError = Js.TypeError /\
  state r = {| coordinates := None; error := None; isLoading := true |} /\
  statesSet (trace r) = [state r] /\
  fetchCalls (trace r) = [] /\
  exists reason,
    Js.nullish reason = true /\
    (outcome tryHighAccuracy
       (worldFailing Js.Null (positionError 1 "no") offline) = Throw reason \/
     outcome tryLowAccuracy
       (worldFailing Js.Null (positionError 1 "no") offline) = Throw reason).
Proof.
  apply (rejected_run_is_stuck
           (worldFailing Js.Null (positionError 1 "no") offline)
           (failed "Location request timed out. Please try again.")
           Js.TypeError).
  reflexivity.
Defined.

(** X8: the state a completed run settles on is decided by the platform
    and the network alone: started from any other state, the run completes
    as well and settles on the same state.  Nothing of the previous
    resolution survives a completed one. *)
Theorem settled_state_forgets_history w prev prev' :
  completion (getLocationWithFallback w prev) = Normal tt ->
  completion (getLocationWithFallback w prev') = Normal tt /\
  state (getLocationWithFallback w prev') =
    state (getLocationWithFallback w prev).
Proof.
  intros Hdone. destruct (run_forgets w prev prev') as [Hsame Hstate].
  split.
  - rewrite <- Hsame. exact Hdone.
  - symmetry. exact (Hstate Hdone).
Qed.

Lemma settled_state_forgets_history_witness :
  completion (getLocationWithFallback worldWithFix
                (failed "Location request timed out. Please try again.")) =
    Normal tt /\
  state (getLocationWithFallback worldWithFix
           (failed "Location request timed out. Please try again.")) =
    state (getLocationWithFallback worldWithFix initialState).
Proof.
  apply (settled_state_forgets_history worldWithFix initialState
           (failed "Location request timed out. Please try again.")).
  reflexivity.
Defined.

(** X9: a completed run writes the state exactly twice: the loading state
    at the start and the settled state at the end.  The failure of one
    strategy on the way to the next is never written. *)
Theorem two_updates_per_run w prev :
  completion (getLocationWithFallback w prev) = Normal tt ->
  let r := getLocationWithFallback w prev in
  statesSet (trace r) =
    [{| coordinates := coordinates prev; error := None; isLoading := true |};
     state r].
Proof.
  by_path w prev; cbn [trace state completion]; cbv zeta;
    intros Hdone; try discriminate Hdone; try reflexivity.
  destruct (tryIPGeolocation_calls w) as (_ & _ & Hquiet).
  rewrite !statesSet_app, Hquiet. reflexivity.
Qed.

Lemma two_updates_per_run_witness :
  let r := getLocationWithFallback
             (worldFailing (positionError 3 "slow") (positionError 1 "no")
                offline) initialState in
  statesSet (trace r) =
    [{| coordinates := None; error := None; isLoading := true |}; state r].
Proof.
  apply (two_updates_per_run
           (worldFailing (positionError 3 "slow") (positionError 1 "no")
              offline) initialState).
  reflexivity.
Defined.

(** X10: the network is the last resort: a run makes a request only to the
    fixed address, and only after both device strategies have been asked,
    in order, and have both failed. *)
Theorem network_is_last_resort w prev url :
  In url (fetchCalls (trace (getLocationWithFallback w prev))) ->
  url = "https://ipapi.co/json/" /\
  positionCalls (trace (getLocationWithFallback w prev)) =
    [highAccuracy; lowAccuracy] /\
  exists e1 e2,
    outcome tryHighAccuracy w = Throw e1 /\
    outcome tryLowAccuracy w = Throw e2.
Proof.
  by_path w prev; cbn [trace state completion]; intros Hin;
    try (cbn in Hin; contradiction).
  destruct (tryIPGeolocation_calls w) as (Hfetch & Hpos & _).
  rewrite !fetchCalls_app, Hfetch in Hin.
  rewrite !positionCalls_app, Hpos.
  cbn in Hin. destruct Hin as [<-|[]].
  split; [reflexivity|]. split; [reflexivity|].
  exists e1, e2.
  rewrite (outcome_high _ _ Hgeo), Hhigh, (outcome_low _ _ Hgeo), Hlow.
  split; reflexivity.
Qed.

Lemma network_is_last_resort_witness :
  "https://ipapi.co/json/" = "https://ipapi.co/json/" /\
  positionCalls
    (trace (getLocationWithFallback
              (worldFailing (positionError 3 "slow") (positionError 1 "no")
                 offline) initialState)) =
    [highAccuracy; lowAccuracy] /\
  exists e1 e2,
    outcome tryHighAccuracy
      (worldFailing (positionError 3 "slow") (positionError 1 "no")
         offline) = Throw e1 /\
    outcome tryLowAccuracy
      (worldFailing (positionError 3 "slow") (positionError 1 "no")
         offline) = Throw e2.
Proof.
  apply (network_is_last_resort
           (worldFailing (positionError 3 "slow") (positionError 1 "no")
              offline) initialState "https://ipapi.co/json/").
  left; reflexivity.
Defined.

(** The writes a completed run makes after its first suspension: the one
    settling write. *)
Lemma settle_is_pending w s :
  supported w = true ->
  completion (getLocationWithFallback w s) = Normal tt ->
  statesSet (fromAwait (trace (getLocationWithFallback w s))) =
    [state (getLocationWithFallback w s)].
Proof.
  unfold supported.
  by_path w s; cbn [trace state completion]; intros Hsup Hdone;
    try discriminate; try reflexivity.
  cbn [app fromAwait statesSet].
  destruct (tryIPGeolocation_calls w) as (_ & _ & Hquiet).
  rewrite !statesSet_app, Hquiet. reflexivity.
Qed.

Lemma call_pending w h :
  pending (call w h) (started h) =
    statesSet (fromAwait (trace (getLocationWithFallback w (locationData h)))).
Proof. unfold call. cbn [pending]. rewrite Nat.eqb_refl. reflexivity. Qed.

(** Moves that leave a run suspended leave its pending writes alone. *)
Lemma pending_untouched i moves :
  forall h,
    i < started h ->
    forallb (leaves i) moves = true ->
    pending (after h moves) i = pending h i.
Proof.
  induction moves as [|m rest IH]; intros h Hlt Hall; cbn.
  - reflexivity.
  - cbn in Hall. apply andb_prop in Hall. destruct Hall as [Hm Hrest].
    unfold after in IH. destruct m as [w|j]; cbn in *.
    + rewrite IH; [|cbn; lia|exact Hrest]. cbn.
      destruct (Nat.eqb_spec i (started h)) as [->|_]; [lia|reflexivity].
    + unfold resume. destruct (pending h j) as [|s rest'] eqn:Hj.
      * apply IH; assumption.
      * rewrite IH; [|exact Hlt|exact Hrest]. cbn.
        destruct (Nat.eqb_spec i j) as [->|_]; [|reflexivity].
        rewrite Nat.eqb_refl in Hm. discriminate Hm.
Qed.

(** X11: whatever runs start or settle while a run is suspended, when that
    run settles the hook shows exactly the state the run would have
    produced alone from the initial state.  The run that settles last,
    not the one started last, decides what the hook shows. *)
Theorem last_settle_decides h w moves :
  supported w = true ->
  completion (getLocationWithFallback w initialState) = Normal tt ->
  forallb (leaves (started h)) moves = true ->
  locationData (after (call w h) (moves ++ [Resume (started h)])) =
    state (getLocationWithFallback w initialState).
Proof.
  intros Hsup Hdone Hleft.
  destruct (run_forgets w initialState (locationData h)) as [Hsame Hstate].
  unfold after. rewrite fold_left_app.
  fold (after (call w h) moves).
  change (locationData (resume (started h) (after (call w h) moves)) =
          state (getLocationWithFallback w initialState)).
  unfold resume.
  rewrite (pending_untouched (started h) moves (call w h));
    [|cbn; lia|exact Hleft].
  rewrite call_pending.
  rewrite (settle_is_pending w (locationData h) Hsup);
    [|rewrite <- Hsame; exact Hdone].
  cbn [locationData]. symmetry. exact (Hstate Hdone).
Qed.

Lemma last_settle_decides_witness :
  locationData
    (after (call worldWithFix created)
       ([Call (worldFailing (positionError 3 "slow") (positionError 1 "no")
                 offline);
         Resume 1] ++ [Resume (started created)])) =
    state (getLocationWithFallback worldWithFix initialState).
Proof.
  apply (last_settle_decides created worldWithFix
           [Call (worldFailing (positionError 3 "slow")
                    (positionError 1 "no") offline);
            Resume 1]);
    reflexivity.
Defined.
